(** * Canvas core of NHWC: stroke history reducer, advanced canvas renderer
      and device performance classification.

    Shallow embedding of
    - [src/src/hooks/useAdvancedCanvas.ts] (the [advancedCanvasReducer] and
      the [undo]/[redo]/[clear] callbacks of the hook),
    - [src/src/services/advancedCanvasRenderer.ts] (render queues, the
      stroke path cache, layers and dirty regions, render statistics),
    - [PerformanceOptimizer.getDevicePerformanceLevel]. *)

From Stdlib Require Import QArith Qround ZArith Lqa.
From stdpp Require Import base list gmap strings pretty.

(* ================================================================== *)
(** * Data model (types/canvas) *)

Record Point := mkPoint { x : Q; y : Q }.

Record DrawingStroke := mkStroke {
  sid : string;                 (* id *)
  points : list Point;
  color : string;
  width : Q;
  timestamp : Z
}.

Record BrushSettings := mkBrush {
  size : Q;
  bcolor : string;
  opacity : Q;
  btype : string
}.

(** [Partial<BrushSettings>]: every field optional. *)
Record PartialBrush := mkPartialBrush {
  p_size : option Q;
  p_color : option string;
  p_opacity : option Q;
  p_type : option string
}.

(** Object spread [{ ...b, ...p }]: the fields present in [p] win. *)
Definition spread_brush (b : BrushSettings) (p : PartialBrush) : BrushSettings :=
  mkBrush (default (size b) (p_size p))
          (default (bcolor b) (p_color p))
          (default (opacity b) (p_opacity p))
          (default (btype b) (p_type p)).

Inductive PerformanceLevel := low | medium | high.

Record RenderingStatsView := mkStatsView {
  framesRendered : Q;
  averageFrameTime : Q;
  droppedFrames : Q
}.

Record AdvancedCanvasState := mkState {
  strokes : list DrawingStroke;
  undoStack : list (list DrawingStroke);
  redoStack : list DrawingStroke;
  isDrawing : bool;
  currentStroke : option DrawingStroke;
  brushSettings : BrushSettings;
  isOptimized : bool;
  performanceLevel : PerformanceLevel;
  renderingStats : RenderingStatsView
}.

(** [BRUSH_CONFIG] defaults (src/src/lib/constants.ts). *)
Definition default_brush : BrushSettings :=
  mkBrush 4 "#1E293B" 1 "pen".

Definition initialState : AdvancedCanvasState := {|
  strokes := [];
  undoStack := [];
  redoStack := [];
  isDrawing := false;
  currentStroke := None;
  brushSettings := default_brush;
  isOptimized := true;
  performanceLevel := medium;
  renderingStats := mkStatsView 0 0 0
|}.

(** [AdvancedCanvasAction]; [OTHER] stands for the remaining [CanvasAction]
    types ('START_DRAWING', 'FINISH_DRAWING') that hit [default]. *)
Inductive AdvancedCanvasAction :=
  | DRAW (payload : DrawingStroke)
  | UNDO
  | REDO
  | CLEAR
  | SET_BRUSH (payload : PartialBrush)
  | UPDATE_PERFORMANCE (level : PerformanceLevel)
  | UPDATE_STATS (payload : RenderingStatsView)
  | OTHER.

(** JavaScript [a.slice(0, -1)]. *)
Definition slice_drop_last {A} (l : list A) : list A := take (length l - 1) l.

(** JavaScript [a[a.length - 1]]: [undefined] (here [None]) on an empty array. *)
Definition at_last {A} (l : list A) : option A := l !! (length l - 1).

(** Record spread helpers: [{ ...state, f: v }]. *)
Definition with_history (s : AdvancedCanvasState) (st : list DrawingStroke)
    (us : list (list DrawingStroke)) (rs : list DrawingStroke) : AdvancedCanvasState :=
  {| strokes := st; undoStack := us; redoStack := rs;
     isDrawing := isDrawing s; currentStroke := currentStroke s;
     brushSettings := brushSettings s; isOptimized := isOptimized s;
     performanceLevel := performanceLevel s; renderingStats := renderingStats s |}.

Definition advancedCanvasReducer (state : AdvancedCanvasState)
    (action : AdvancedCanvasAction) : AdvancedCanvasState :=
  match action with
  | DRAW p =>
      with_history state (strokes state ++ [p]) (undoStack state) []
  | UNDO =>
      if Nat.eqb (length (strokes state)) 0 then state else
      match at_last (strokes state) with
      | Some lastStroke =>
          with_history state (slice_drop_last (strokes state))
            (undoStack state ++ [[lastStroke]]) (redoStack state)
      | None => state (* unreachable: the array is non-empty *)
      end
  | REDO =>
      if Nat.eqb (length (undoStack state)) 0 then state else
      match at_last (undoStack state) with
      | Some strokesToRedo =>
          with_history state (strokes state ++ strokesToRedo)
            (slice_drop_last (undoStack state)) (redoStack state)
      | None => state (* unreachable: the array is non-empty *)
      end
  | CLEAR =>
      with_history state [] (undoStack state ++ [strokes state]) []
  | SET_BRUSH p =>
      {| strokes := strokes state; undoStack := undoStack state;
         redoStack := redoStack state; isDrawing := isDrawing state;
         currentStroke := currentStroke state;
         brushSettings := spread_brush (brushSettings state) p;
         isOptimized := isOptimized state;
         performanceLevel := performanceLevel state;
         renderingStats := renderingStats state |}
  | UPDATE_PERFORMANCE lvl =>
      {| strokes := strokes state; undoStack := undoStack state;
         redoStack := redoStack state; isDrawing := isDrawing state;
         currentStroke := currentStroke state;
         brushSettings := brushSettings state;
         isOptimized := isOptimized state;
         performanceLevel := lvl;
         renderingStats := renderingStats state |}
  | UPDATE_STATS p =>
      {| strokes := strokes state; undoStack := undoStack state;
         redoStack := redoStack state; isDrawing := isDrawing state;
         currentStroke := currentStroke state;
         brushSettings := brushSettings state;
         isOptimized := isOptimized state;
         performanceLevel := performanceLevel state;
         renderingStats := p |}
  | OTHER => state
  end.

(** A sequence of dispatches, applied in order (React's [useReducer]). *)
Definition dispatch_all (s : AdvancedCanvasState) (acts : list AdvancedCanvasAction)
    : AdvancedCanvasState :=
  fold_left advancedCanvasReducer acts s.

(** The hook callbacks.  [hasRenderer] is [rendererRef.current !== null];
    only the effect on the reducer state is modelled here (the renderer
    side is modelled further down). *)
Definition undo_cb (hasRenderer : bool) (state : AdvancedCanvasState) : AdvancedCanvasState :=
  if Nat.eqb (length (strokes state)) 0 || negb hasRenderer then state
  else advancedCanvasReducer state UNDO.

Definition redo_cb (hasRenderer : bool) (state : AdvancedCanvasState) : AdvancedCanvasState :=
  if Nat.eqb (length (undoStack state)) 0 || negb hasRenderer then state
  else advancedCanvasReducer state REDO.

Definition clear_cb (hasRenderer : bool) (state : AdvancedCanvasState) : AdvancedCanvasState :=
  if negb hasRenderer then state else advancedCanvasReducer state CLEAR.

(** [endDrawing]: seals the current stroke with a DRAW dispatch. *)
Definition endDrawing_cb (stroke : DrawingStroke) (state : AdvancedCanvasState) : AdvancedCanvasState :=
  advancedCanvasReducer state (DRAW stroke).

(* ================================================================== *)
(** * AdvancedCanvasRenderer (src/src/services/advancedCanvasRenderer.ts) *)

Open Scope Q_scope.

(** [Path2D], as the list of the commands issued on it. *)
Inductive PathCmd :=
  | moveTo (px py : Q)
  | quadraticCurveTo (cpx cpy px py : Q)
  | lineTo (px py : Q).

Definition Path2D := list PathCmd.

(** [DOMRect(x, y, width, height)]. *)
Record DOMRect := mkRect { rx : Q; ry : Q; rwidth : Q; rheight : Q }.

(** [CanvasLayer]; the pixels of [canvas]/[ctx] are not modelled. *)
Record CanvasLayer := mkLayer { isDirty : bool; zIndex : Z }.

(** The closures queued by [drawStroke], [drawStrokes], [clearLayer] and
    [resize], by the arguments they capture. *)
Inductive Operation :=
  | OpDrawStroke (stroke : DrawingStroke) (layerName : string)
  | OpDrawStrokes (strokes : list DrawingStroke) (layerName : string)
  | OpClearLayer (layerName : string)
  | OpResize (w h : Q).

(** Observable events of the render loop, in the order they happen. *)
Inductive RenderEvent :=
  | EvExec (op : Operation)
  | EvComposite.

Record RenderStats := mkRenderStats {
  rs_framesRendered : nat;
  rs_averageFrameTime : Q;
  rs_droppedFrames : nat;
  rs_totalRenderTime : Q
}.

(** The private fields of the renderer.  [layers] is a JavaScript [Map],
    kept as an association list in insertion order. *)
Record Renderer := mkRenderer {
  layers : list (string * CanvasLayer);
  renderQueue : list Operation;
  batchedOperations : list Operation;
  lastFrameTime : Q;
  targetFrameRate : Q;
  renderStats : RenderStats;
  strokeCache : gmap string Path2D;
  dirtyRegions : list DOMRect;
  hasOffscreen : bool;
  trace : list RenderEvent
}.

(** [Map.prototype.get] / [Map.prototype.set] on the association list. *)
Fixpoint map_get {A} (m : list (string * A)) (k : string) : option A :=
  match m with
  | [] => None
  | (k', v) :: m' => if String.eqb k k' then Some v else map_get m' k
  end.

Fixpoint map_set {A} (m : list (string * A)) (k : string) (v : A) : list (string * A) :=
  match m with
  | [] => [(k, v)]
  | (k', v') :: m' => if String.eqb k k' then (k', v) :: m' else (k', v') :: map_set m' k v
  end.

(** Strict comparison [a < b] on numbers. *)
Definition Qlt_bool (a b : Q) : bool := negb (Qle_bool b a).

Definition js_min (a b : Q) : Q := if Qlt_bool b a then b else a.
Definition js_max (a b : Q) : Q := if Qlt_bool a b then b else a.

(** The loop of [createStrokePath], over [points[1..]]: one
    [quadraticCurveTo] per point that has a successor, i.e. for
    [i = 1 .. points.length - 2], through [points[i]] to the midpoint of
    [points[i]] and [points[i + 1]]. *)
Fixpoint smooth_segments (ps : list Point) : list PathCmd :=
  match ps with
  | current :: ((next :: _) as rest) =>
      quadraticCurveTo (x current) (y current)
        ((x current + x next) / 2) ((y current + y next) / 2)
        :: smooth_segments rest
  | _ => []
  end.

(** [createStrokePath]. *)
Definition createStrokePath (stroke : DrawingStroke) : Path2D :=
  let ps := points stroke in
  if Nat.ltb (length ps) 2 then [] else
  match ps with
  | p0 :: rest =>
      (* for (i = 1; i < points.length - 1; i++): the interior points *)
      [moveTo (x p0) (y p0)] ++ smooth_segments rest ++
      (match at_last ps with
       | Some lastPoint => [lineTo (x lastPoint) (y lastPoint)]
       | None => []
       end)
  | [] => []
  end.

(** The body of the [forEach] of [getStrokeBounds] on
    [(minX, minY, maxX, maxY)]. *)
Definition bounds_step (acc : Q * Q * Q * Q) (p : Point) : Q * Q * Q * Q :=
  let '(minX, minY, maxX, maxY) := acc in
  (js_min minX (x p), js_min minY (y p), js_max maxX (x p), js_max maxY (y p)).

(** [getStrokeBounds]. *)
Definition getStrokeBounds (stroke : DrawingStroke) : DOMRect :=
  match points stroke with
  | [] => mkRect 0 0 0 0
  | p0 :: _ =>
      let '(minX, minY, maxX, maxY) :=
        fold_left bounds_step (points stroke) (x p0, y p0, x p0, y p0) in
      let padding := width stroke / 2 in
      mkRect (minX - padding) (minY - padding)
             (maxX - minX + padding * 2) (maxY - minY + padding * 2)
  end.

(** [addDirtyRegion]: push, and keep the last 50 once there are more than 100. *)
Definition addDirtyRegion (rs : list DOMRect) (rect : DOMRect) : list DOMRect :=
  let rs' := rs ++ [rect] in
  if Nat.ltb 100 (length rs') then drop (length rs' - 50) rs' else rs'.

Definition set_layers (r : Renderer) (ls : list (string * CanvasLayer)) : Renderer :=
  {| layers := ls; renderQueue := renderQueue r; batchedOperations := batchedOperations r;
     lastFrameTime := lastFrameTime r; targetFrameRate := targetFrameRate r;
     renderStats := renderStats r; strokeCache := strokeCache r;
     dirtyRegions := dirtyRegions r; hasOffscreen := hasOffscreen r; trace := trace r |}.

Definition mark_dirty (l : CanvasLayer) : CanvasLayer := mkLayer true (zIndex l).
Definition mark_clean (l : CanvasLayer) : CanvasLayer := mkLayer false (zIndex l).

(** Field updates [this.f = v] on the renderer. *)
Definition set_queues (r : Renderer) (rq bo : list Operation) : Renderer :=
  {| layers := layers r; renderQueue := rq; batchedOperations := bo;
     lastFrameTime := lastFrameTime r; targetFrameRate := targetFrameRate r;
     renderStats := renderStats r; strokeCache := strokeCache r;
     dirtyRegions := dirtyRegions r; hasOffscreen := hasOffscreen r; trace := trace r |}.

Definition set_cache_regions (r : Renderer) (c : gmap string Path2D) (d : list DOMRect) : Renderer :=
  {| layers := layers r; renderQueue := renderQueue r; batchedOperations := batchedOperations r;
     lastFrameTime := lastFrameTime r; targetFrameRate := targetFrameRate r;
     renderStats := renderStats r; strokeCache := c;
     dirtyRegions := d; hasOffscreen := hasOffscreen r; trace := trace r |}.

Definition set_trace (r : Renderer) (t : list RenderEvent) : Renderer :=
  {| layers := layers r; renderQueue := renderQueue r; batchedOperations := batchedOperations r;
     lastFrameTime := lastFrameTime r; targetFrameRate := targetFrameRate r;
     renderStats := renderStats r; strokeCache := strokeCache r;
     dirtyRegions := dirtyRegions r; hasOffscreen := hasOffscreen r; trace := t |}.

Definition set_stats (r : Renderer) (st : RenderStats) : Renderer :=
  {| layers := layers r; renderQueue := renderQueue r; batchedOperations := batchedOperations r;
     lastFrameTime := lastFrameTime r; targetFrameRate := targetFrameRate r;
     renderStats := st; strokeCache := strokeCache r;
     dirtyRegions := dirtyRegions r; hasOffscreen := hasOffscreen r; trace := trace r |}.

Definition set_lastFrameTime (r : Renderer) (t : Q) : Renderer :=
  {| layers := layers r; renderQueue := renderQueue r; batchedOperations := batchedOperations r;
     lastFrameTime := t; targetFrameRate := targetFrameRate r;
     renderStats := renderStats r; strokeCache := strokeCache r;
     dirtyRegions := dirtyRegions r; hasOffscreen := hasOffscreen r; trace := trace r |}.

Section Renderer.

(** JavaScript's number-to-string conversion used by the template literal
    of [getStrokeCacheKey]; its exact output is left abstract. *)
Context (number_toString : Q -> string).

(** [getStrokeCacheKey]: `${id}_${points.length}_${color}_${width}`. *)
Definition getStrokeCacheKey (stroke : DrawingStroke) : string :=
  sid stroke +:+ "_" +:+ number_toString (inject_Z (Z.of_nat (length (points stroke))))
    +:+ "_" +:+ color stroke +:+ "_" +:+ number_toString (width stroke).

(** The body of a queued closure. *)
Definition exec_op (r : Renderer) (op : Operation) : Renderer :=
  match op with
  | OpDrawStroke stroke layerName =>
      match map_get (layers r) layerName with
      | None => r
      | Some layer =>
          let cacheKey := getStrokeCacheKey stroke in
          let cache' :=
            match strokeCache r !! cacheKey with
            | Some _ => strokeCache r
            | None => <[cacheKey := createStrokePath stroke]> (strokeCache r)
            end in
          let r1 := set_layers r (map_set (layers r) layerName (mark_dirty layer)) in
          set_cache_regions r1 cache' (addDirtyRegion (dirtyRegions r) (getStrokeBounds stroke))
      end
  | OpDrawStrokes _ layerName =>
      match map_get (layers r) layerName with
      | None => r
      | Some layer => set_layers r (map_set (layers r) layerName (mark_dirty layer))
      end
  | OpClearLayer layerName =>
      match map_get (layers r) layerName with
      | None => r
      | Some layer => set_layers r (map_set (layers r) layerName (mark_dirty layer))
      end
  | OpResize _ _ =>
      (* canvas sizes are not modelled; every layer is marked dirty *)
      set_layers r (map (fun '(n, l) => (n, mark_dirty l)) (layers r))
  end.

(** [operation()]: the call is recorded, then its body runs. *)
Definition run_op (r : Renderer) (op : Operation) : Renderer :=
  exec_op (set_trace r (trace r ++ [EvExec op])) op.

(** [processBatchedOperations]: copy the array, empty it, run the copy. *)
Definition processBatchedOperations (r : Renderer) : Renderer :=
  let operations := batchedOperations r in
  fold_left run_op operations (set_queues r (renderQueue r) []).

(** [while (renderQueue.length > 0) { renderQueue.shift()() }].  No queued
    closure pushes onto [renderQueue], so the loop runs the queue as it
    stood when the loop started, each element removed before it runs. *)
Definition drainRenderQueue (r : Renderer) : Renderer :=
  fold_left run_op (renderQueue r) (set_queues r [] (batchedOperations r)).

(** [composeLayers]: dirty layers are drawn (in zIndex order) and cleaned. *)
Definition composeLayers (r : Renderer) : Renderer :=
  let r1 := set_layers r (map (fun '(n, l) => (n, if isDirty l then mark_clean l else l)) (layers r)) in
  set_trace r1 (trace r1 ++ [EvComposite]).

(** [updateRenderStats]. *)
Definition updateRenderStats (r : Renderer) (frameTime : Q) : Renderer :=
  let st := renderStats r in
  let frames := S (rs_framesRendered st) in
  let total := rs_totalRenderTime st + frameTime in
  let avg := total / inject_Z (Z.of_nat frames) in
  let targetFrameTime := 1000 / targetFrameRate r in
  let dropped := if Qlt_bool (targetFrameTime * (3 # 2)) frameTime
                 then S (rs_droppedFrames st) else rs_droppedFrames st in
  set_stats r (mkRenderStats frames avg dropped total).

(** [processRenderQueue]; [frameTime] is [endTime - startTime] as measured
    by [performance.now()], an input of the model. *)
Definition processRenderQueue (frameTime : Q) (r : Renderer) : Renderer :=
  if Nat.eqb (length (renderQueue r)) 0 && Nat.eqb (length (batchedOperations r)) 0 then r
  else
    let r1 := if Nat.ltb 0 (length (batchedOperations r)) then processBatchedOperations r else r in
    let r2 := drainRenderQueue r1 in
    let r3 := composeLayers r2 in
    updateRenderStats r3 frameTime.

(** One [renderFrame(currentTime)] callback of the loop started by
    [startRenderLoop]. *)
Definition renderFrame (currentTime frameTime : Q) (r : Renderer) : Renderer :=
  let frameInterval := 1000 / targetFrameRate r in
  let deltaTime := currentTime - lastFrameTime r in
  if Qle_bool frameInterval deltaTime then
    set_lastFrameTime (processRenderQueue frameTime r) currentTime
  else r.

(** Public methods. *)
Definition drawStroke (r : Renderer) (stroke : DrawingStroke) (layerName : string) : Renderer :=
  set_queues r (renderQueue r) (batchedOperations r ++ [OpDrawStroke stroke layerName]).

Definition drawStrokes (r : Renderer) (ss : list DrawingStroke) (layerName : string) : Renderer :=
  set_queues r (renderQueue r) (batchedOperations r ++ [OpDrawStrokes ss layerName]).

Definition clearLayer (r : Renderer) (layerName : string) : Renderer :=
  set_queues r (renderQueue r ++ [OpClearLayer layerName]) (batchedOperations r).

Definition resize (r : Renderer) (w h : Q) : Renderer :=
  set_queues r (renderQueue r ++ [OpResize w h]) (batchedOperations r).

(** [clear]: one [clearLayer] per layer in Map order; the offscreen
    [clearRect] touches pixels only; then the cache and the dirty regions
    are emptied. *)
Definition clear (r : Renderer) : Renderer :=
  let r1 := fold_left (fun acc '(name, _) => clearLayer acc name) (layers r) r in
  set_cache_regions r1 ∅ [].

End Renderer.

(** The constructor: [targetFrameRate = options.frameRate || 60], three
    clean layers, empty queues, zero statistics. *)
Definition newRenderer (frameRate : option Q) (offscreen : bool) : Renderer := {|
  layers := [("background", mkLayer false 0%Z); ("drawing", mkLayer false 1%Z);
             ("ui", mkLayer false 2%Z)];
  renderQueue := [];
  batchedOperations := [];
  lastFrameTime := 0;
  targetFrameRate := match frameRate with
                     | Some f => if Qeq_bool f 0 then 60 else f
                     | None => 60
                     end;
  renderStats := mkRenderStats 0 0 0 0;
  strokeCache := ∅;
  dirtyRegions := [];
  hasOffscreen := offscreen;
  trace := []
|}.

(* ================================================================== *)
(** * PerformanceOptimizer.getDevicePerformanceLevel (src/unnamed/part_001) *)

(** Inputs: [navigator.hardwareConcurrency] (0 standing for a missing
    value, as [|| 2] treats both alike), [getMemoryUsage()] as the optional
    [totalJSHeapSize] in bytes, and the user-agent test [isMobile]. *)
Definition getDevicePerformanceLevel (hardwareConcurrency : Q)
    (memoryTotal : option Q) (isMobile : bool) : PerformanceLevel :=
  let cores := if Qeq_bool hardwareConcurrency 0 then 2 else hardwareConcurrency in
  let memoryGB := match memoryTotal with
                  | Some total => total / (1024 * 1024 * 1024)
                  | None => 4
                  end in
  if isMobile then
    (if Qle_bool 6 cores && Qle_bool 4 memoryGB then medium else low)
  else if Qle_bool 8 cores && Qle_bool 8 memoryGB then high
  else if Qle_bool 4 cores && Qle_bool 4 memoryGB then medium
  else low.

(** The tiers as the specification words them (section 4.1), over the
    core count and the optional memory size in GB. *)
Definition classify_spec (cores : Q) (memoryGB : option Q) (mobile : bool) : PerformanceLevel :=
  let mem := default 4 memoryGB in
  if mobile then (if Qle_bool 6 cores && Qle_bool 4 mem then medium else low)
  else if Qle_bool 8 cores && Qle_bool 8 mem then high
  else if Qle_bool 4 cores && Qle_bool 4 mem then medium
  else low.

Definition bytes_per_GB : Q := 1024 * 1024 * 1024.

(* ================================================================== *)
(** * Lemmas on the JavaScript array helpers *)

Lemma slice_drop_last_snoc {A} (l : list A) (a : A) : slice_drop_last (l ++ [a]) = l.
Proof.
  unfold slice_drop_last. rewrite length_app. simpl.
  replace (length l + 1 - 1)%nat with (length l) by lia.
  by rewrite take_app_length.
Qed.

Lemma at_last_snoc {A} (l : list A) (a : A) : at_last (l ++ [a]) = Some a.
Proof.
  unfold at_last. rewrite length_app. simpl.
  replace (length l + 1 - 1)%nat with (length l) by lia.
  by rewrite lookup_app_r, Nat.sub_diag by lia.
Qed.

Lemma length_snoc_neq0 {A} (l : list A) (a : A) : Nat.eqb (length (l ++ [a])) 0 = false.
Proof. rewrite length_app. simpl. apply Nat.eqb_neq. lia. Qed.

Lemma reducer_UNDO_snoc (s : AdvancedCanvasState) l a :
  strokes s = l ++ [a] ->
  advancedCanvasReducer s UNDO = with_history s l (undoStack s ++ [[a]]) (redoStack s).
Proof.
  intros Hs. simpl. rewrite Hs, length_snoc_neq0, at_last_snoc, slice_drop_last_snoc.
  reflexivity.
Qed.

Lemma reducer_REDO_snoc (s : AdvancedCanvasState) u b :
  undoStack s = u ++ [b] ->
  advancedCanvasReducer s REDO = with_history s (strokes s ++ b) u (redoStack s).
Proof.
  intros Hs. simpl. rewrite Hs, length_snoc_neq0, at_last_snoc, slice_drop_last_snoc.
  reflexivity.
Qed.

Lemma reducer_UNDO_nil (s : AdvancedCanvasState) :
  strokes s = [] -> advancedCanvasReducer s UNDO = s.
Proof. intros Hs. simpl. by rewrite Hs. Qed.

Lemma reducer_REDO_nil (s : AdvancedCanvasState) :
  undoStack s = [] -> advancedCanvasReducer s REDO = s.
Proof. intros Hs. simpl. by rewrite Hs. Qed.

(** The strokes sealed by a sequence of dispatches: the DRAW payloads. *)
Definition sealed_strokes (acts : list AdvancedCanvasAction) : list DrawingStroke :=
  flat_map (fun a => match a with DRAW p => [p] | _ => [] end) acts.

(** Only DRAW, UNDO, REDO and CLEAR. *)
Definition history_action (a : AdvancedCanvasAction) : bool :=
  match a with DRAW _ | UNDO | REDO | CLEAR => true | _ => false end.

Lemma dispatch_all_app s acts1 acts2 :
  dispatch_all s (acts1 ++ acts2) = dispatch_all (dispatch_all s acts1) acts2.
Proof. unfold dispatch_all. apply fold_left_app. Qed.

(** Sample strokes (the spec's scenario stroke A: 3 points, #FF0000, width 4). *)
Definition stroke_A : DrawingStroke :=
  mkStroke "A" [mkPoint 0 0; mkPoint 1 1; mkPoint 2 2] "#FF0000" 4 0%Z.
Definition stroke_B : DrawingStroke :=
  mkStroke "B" [mkPoint 5 5; mkPoint 6 7] "#1E293B" 4 1%Z.
Definition stroke_dot : DrawingStroke :=
  mkStroke "dot" [mkPoint 3 4] "#1E293B" 4 2%Z.

(* ================================================================== *)
(** * Stroke history *)

(** C1 (corrected).  After [clear()], [strokes] is empty, so the [undo()]
    callback returns without dispatching: the pre-clear strokes are not
    back.  Counterexample: draw A, clear, undo. *)
Lemma clear_undo_not_restoring :
  let s := endDrawing_cb stroke_A initialState in
  strokes (undo_cb true (clear_cb true s)) <> strokes s.
Proof. simpl. discriminate. Qed.

(** C1 (amended): for every canvas state, after [clear()] an [undo()]
    leaves the state unchanged, and exactly one [redo()] restores the full
    pre-clear [strokes] list (and the pre-clear [undoStack]). *)
Theorem clear_then_redo_restores (s : AdvancedCanvasState) :
  let c := clear_cb true s in
  undo_cb true c = c /\
  strokes (redo_cb true c) = strokes s /\
  undoStack (redo_cb true c) = undoStack s.
Proof.
  intros c.
  assert (Hc : c = with_history s [] (undoStack s ++ [strokes s]) []) by reflexivity.
  rewrite Hc. split; [reflexivity|].
  unfold redo_cb. cbn [undoStack with_history]. rewrite length_snoc_neq0. cbn [orb negb].
  rewrite (reducer_REDO_snoc _ (undoStack s) (strokes s)) by reflexivity.
  simpl. auto.
Qed.

(** C2 (corrected).  Counterexample: draw A, draw B, undo, undo gives
    [strokes = []] and [undoStack = [[B]; [A]]], so the concatenation reads
    B, A while the strokes were sealed as A, B. *)
Lemma history_concat_counterexample :
  let acts := [DRAW stroke_A; DRAW stroke_B; UNDO; UNDO] in
  let s := dispatch_all initialState acts in
  forallb history_action acts = true /\
  strokes s ++ concat (undoStack s) <> sealed_strokes acts.
Proof. simpl. split; [reflexivity | discriminate]. Qed.

Lemma reducer_history_perm (s : AdvancedCanvasState) (a : AdvancedCanvasAction) :
  strokes (advancedCanvasReducer s a) ++ concat (undoStack (advancedCanvasReducer s a))
    ≡ₚ strokes s ++ concat (undoStack s) ++ sealed_strokes [a].
Proof.
  destruct a; unfold sealed_strokes; cbn [flat_map app]; rewrite ?app_nil_r.
  - simpl. solve_Permutation.
  - destruct (strokes s) as [|a l] eqn:Hs using rev_ind.
    + rewrite reducer_UNDO_nil by done. by rewrite Hs.
    + clear IHl. rewrite (reducer_UNDO_snoc _ l a Hs). simpl.
      rewrite concat_app. simpl. solve_Permutation.
  - destruct (undoStack s) as [|b u] eqn:Hu using rev_ind.
    + rewrite reducer_REDO_nil by done. by rewrite Hu.
    + clear IHu. rewrite (reducer_REDO_snoc _ u b Hu). simpl.
      rewrite concat_app. simpl. solve_Permutation.
  - simpl. rewrite concat_app. simpl. solve_Permutation.
  - done.
  - done.
  - done.
  - done.
Qed.

(** C2 (amended): in every state reached from [initialState] by any
    sequence of dispatches, [strokes] concatenated with the flattened
    [undoStack] (bottom to top) is a permutation of the strokes sealed
    during the session: no stroke is lost or duplicated, but the order is
    not the creation order in general. *)
Theorem history_perm_invariant (acts : list AdvancedCanvasAction) :
  let s := dispatch_all initialState acts in
  strokes s ++ concat (undoStack s) ≡ₚ sealed_strokes acts.
Proof.
  induction acts as [|a acts IH] using rev_ind; simpl.
  - reflexivity.
  - rewrite dispatch_all_app. unfold dispatch_all at 1. simpl.
    rewrite reducer_history_perm. fold (dispatch_all initialState acts).
    unfold sealed_strokes. rewrite flat_map_app. fold (sealed_strokes acts).
    rewrite app_assoc. f_equiv. exact IH.
Qed.

(** C8: for every state with a non-empty [strokes] list, UNDO followed by
    REDO gives back the same [strokes] sequence and an [undoStack] of the
    prior size. *)
Theorem undo_redo_restores (s : AdvancedCanvasState) :
  strokes s <> [] ->
  strokes (advancedCanvasReducer (advancedCanvasReducer s UNDO) REDO) = strokes s /\
  length (undoStack (advancedCanvasReducer (advancedCanvasReducer s UNDO) REDO))
    = length (undoStack s).
Proof.
  intros Hne.
  destruct (strokes s) as [|a l] eqn:Hs using rev_ind; [congruence|]. clear IHl.
  rewrite (reducer_UNDO_snoc _ l a Hs).
  rewrite (reducer_REDO_snoc _ (undoStack s) [a]) by reflexivity.
  simpl. auto.
Qed.

Lemma undo_redo_restores_witness :
  let s := endDrawing_cb stroke_A initialState in
  strokes s <> [] /\
  strokes (advancedCanvasReducer (advancedCanvasReducer s UNDO) REDO) = strokes s /\
  length (undoStack (advancedCanvasReducer (advancedCanvasReducer s UNDO) REDO))
    = length (undoStack s).
Proof.
  simpl. split; [discriminate|].
  apply (undo_redo_restores (endDrawing_cb stroke_A initialState)). simpl. discriminate.
Defined.

(** C9 (corrected).  CLEAR on the empty initial canvas is not a no-op: it
    pushes an empty batch onto [undoStack]. *)
Lemma clear_empty_not_noop :
  advancedCanvasReducer initialState CLEAR <> initialState /\
  undoStack (advancedCanvasReducer initialState CLEAR) = [[]].
Proof. split; [discriminate | reflexivity]. Qed.

(** C9 (amended): UNDO with an empty [strokes] list and REDO with an empty
    [undoStack] return the state unchanged; CLEAR with an empty [strokes]
    list changes only [undoStack], onto which it pushes an empty batch, and
    [redoStack], which it resets to the empty list.  The reducer is total:
    none of them fails. *)
Theorem empty_history_ops (s : AdvancedCanvasState) :
  (strokes s = [] -> advancedCanvasReducer s UNDO = s) /\
  (undoStack s = [] -> advancedCanvasReducer s REDO = s) /\
  (strokes s = [] ->
   advancedCanvasReducer s CLEAR = with_history s [] (undoStack s ++ [[]]) []).
Proof.
  split; [apply reducer_UNDO_nil|]. split; [apply reducer_REDO_nil|].
  intros Hs. simpl. by rewrite Hs.
Qed.

Lemma empty_history_ops_witness :
  advancedCanvasReducer initialState UNDO = initialState /\
  advancedCanvasReducer initialState REDO = initialState /\
  advancedCanvasReducer initialState CLEAR = with_history initialState [] [[]] [].
Proof.
  destruct (empty_history_ops initialState) as [H1 [H2 H3]].
  split; [apply H1; reflexivity|]. split; [apply H2; reflexivity|].
  apply H3. reflexivity.
Defined.

Lemma reducer_keeps_redo_empty (s : AdvancedCanvasState) (a : AdvancedCanvasAction) :
  redoStack s = [] -> redoStack (advancedCanvasReducer s a) = [].
Proof.
  intros Hr. destruct a; try done; simpl.
  - destruct (Nat.eqb (length (strokes s)) 0); [done|].
    by destruct (at_last (strokes s)).
  - destruct (Nat.eqb (length (undoStack s)) 0); [done|].
    by destruct (at_last (undoStack s)).
Qed.

(** C10: in every state reached from [initialState] by any sequence of
    dispatches, [redoStack] is empty. *)
Theorem redoStack_always_empty (acts : list AdvancedCanvasAction) :
  redoStack (dispatch_all initialState acts) = [].
Proof.
  unfold dispatch_all.
  assert (Hgen : forall s, redoStack s = [] -> redoStack (fold_left advancedCanvasReducer acts s) = []).
  { induction acts as [|a acts IH]; intros s Hs; simpl; [done|].
    apply IH. by apply reducer_keeps_redo_empty. }
  by apply Hgen.
Qed.

(* ================================================================== *)
(** * Device performance level *)

(** C6: with a reported core count, [getDevicePerformanceLevel] is the
    tier function of the specification applied to the core count, the
    optional memory size in GB (4 when missing) and the mobile flag; in
    particular high for 8 cores / 8 GB desktop, low for 2 cores / 2 GB
    mobile, medium for 6 cores / 4 GB mobile. *)
Theorem device_level_classify (hardwareConcurrency : Q) (memoryTotal : option Q) (isMobile : bool) :
  Qeq_bool hardwareConcurrency 0 = false ->
  getDevicePerformanceLevel hardwareConcurrency memoryTotal isMobile
    = classify_spec hardwareConcurrency (option_map (fun t => t / bytes_per_GB) memoryTotal) isMobile /\
  getDevicePerformanceLevel 8 (Some (8 * bytes_per_GB)) false = high /\
  getDevicePerformanceLevel 2 (Some (2 * bytes_per_GB)) true = low /\
  getDevicePerformanceLevel 6 (Some (4 * bytes_per_GB)) true = medium.
Proof.
  intros Hc. split.
  - unfold getDevicePerformanceLevel, classify_spec. rewrite Hc.
    destruct memoryTotal; reflexivity.
  - repeat split; vm_compute; reflexivity.
Qed.

Lemma device_level_classify_witness :
  Qeq_bool 8 0 = false /\
  getDevicePerformanceLevel 8 None false
    = classify_spec 8 (option_map (fun t => t / bytes_per_GB) None) false.
Proof.
  split; [reflexivity|]. apply (device_level_classify 8 None false). reflexivity.
Defined.

(* ================================================================== *)
(** * Renderer: operations, frames and the clear method *)

(** A concrete stand-in for the number formatting, exact on integral
    values (the lengths and widths of the sample strokes). *)
Definition int_toString (q : Q) : string := pretty (Qnum q).

Lemma map_get_set_eq {A} (m : list (string * A)) k v : map_get (map_set m k v) k = Some v.
Proof.
  induction m as [|[k' v'] m IH]; cbn [map_set map_get].
  - by rewrite String.eqb_refl.
  - destruct (String.eqb k k') eqn:E; cbn [map_get]; rewrite E; [done | exact IH].
Qed.

(** The scheduling part of the renderer state, untouched by the bodies of
    the queued closures. *)
Definition sched (r : Renderer) : list Operation * list Operation * Q * Q * RenderStats :=
  (renderQueue r, batchedOperations r, lastFrameTime r, targetFrameRate r, renderStats r).

Lemma exec_op_sched nts r op :
  sched (exec_op nts r op) = sched r /\ trace (exec_op nts r op) = trace r.
Proof.
  destruct op; simpl; try (destruct (map_get (layers r) layerName)); done.
Qed.

Lemma run_ops_sched nts ops r :
  sched (fold_left (run_op nts) ops r) = sched r /\
  trace (fold_left (run_op nts) ops r) = trace r ++ map EvExec ops.
Proof.
  revert r. induction ops as [|op ops IH]; intros r; simpl.
  - by rewrite app_nil_r.
  - destruct (IH (run_op nts r op)) as [H1 H2]. rewrite H1, H2.
    unfold run_op. destruct (exec_op_sched nts (set_trace r (trace r ++ [EvExec op])) op) as [H3 H4].
    rewrite H3, H4. simpl. split; [done|]. by rewrite <- app_assoc.
Qed.

Lemma sched_eq_inv r1 r2 :
  sched r1 = sched r2 ->
  renderQueue r1 = renderQueue r2 /\ batchedOperations r1 = batchedOperations r2 /\
  lastFrameTime r1 = lastFrameTime r2 /\ targetFrameRate r1 = targetFrameRate r2 /\
  renderStats r1 = renderStats r2.
Proof. unfold sched. intros H. inversion H. auto 10. Qed.

(** Ops of a list of events: the closures that ran, in order. *)
Definition executed (evs : list RenderEvent) : list Operation :=
  flat_map (fun e => match e with EvExec o => [o] | EvComposite => [] end) evs.

(** The effect of an eligible frame on the scheduling state and the trace,
    when at least one queue is non-empty. *)
Lemma renderFrame_eligible nts ct ft r :
  Qle_bool (1000 / targetFrameRate r) (ct - lastFrameTime r) = true ->
  (renderQueue r <> [] \/ batchedOperations r <> []) ->
  let r' := renderFrame nts ct ft r in
  let st := renderStats r in
  renderQueue r' = [] /\ batchedOperations r' = [] /\
  trace r' = trace r ++ map EvExec (batchedOperations r ++ renderQueue r) ++ [EvComposite] /\
  lastFrameTime r' = ct /\
  renderStats r' =
    mkRenderStats (S (rs_framesRendered st))
      ((rs_totalRenderTime st + ft) / inject_Z (Z.of_nat (S (rs_framesRendered st))))
      (if Qlt_bool (1000 / targetFrameRate r * (3 # 2)) ft
       then S (rs_droppedFrames st) else rs_droppedFrames st)
      (rs_totalRenderTime st + ft).
Proof.
  intros Hel Hne. unfold renderFrame, processRenderQueue. rewrite Hel.
  assert (Hq : (Nat.eqb (length (renderQueue r)) 0 && Nat.eqb (length (batchedOperations r)) 0) = false).
  { destruct Hne as [Hne|Hne];
      [destruct (renderQueue r) | destruct (batchedOperations r), (Nat.eqb (length (renderQueue r)) 0)];
      simpl; done. }
  rewrite Hq.
  set (r1 := if Nat.ltb 0 (length (batchedOperations r)) then processBatchedOperations nts r else r).
  assert (Hr1 : renderQueue r1 = renderQueue r /\ batchedOperations r1 = [] /\
                lastFrameTime r1 = lastFrameTime r /\ targetFrameRate r1 = targetFrameRate r /\
                renderStats r1 = renderStats r /\
                trace r1 = trace r ++ map EvExec (batchedOperations r)).
  { unfold r1. destruct (Nat.ltb 0 (length (batchedOperations r))) eqn:Hb.
    - unfold processBatchedOperations.
      destruct (run_ops_sched nts (batchedOperations r) (set_queues r (renderQueue r) [])) as [H1 H2].
      apply sched_eq_inv in H1. simpl in H1. rewrite H2. simpl. intuition.
    - assert (Hb0 : batchedOperations r = []).
      { destruct (batchedOperations r); [done|]. simpl in Hb. discriminate. }
      rewrite Hb0, app_nil_r. intuition. }
  destruct Hr1 as (Q1 & B1 & L1 & T1 & S1 & Tr1).
  unfold drainRenderQueue.
  destruct (run_ops_sched nts (renderQueue r1) (set_queues r1 [] (batchedOperations r1))) as [H1 H2].
  apply sched_eq_inv in H1. simpl in H1. destruct H1 as (Q2 & B2 & L2 & T2 & S2).
  set (r2 := fold_left (run_op nts) (renderQueue r1) (set_queues r1 [] (batchedOperations r1))) in *.
  simpl. unfold updateRenderStats. simpl.
  rewrite Q2, B2, B1, T2, T1, S2, S1. simpl.
  split; [done|]. split; [done|]. split; [|done].
  rewrite H2. simpl. rewrite Tr1, Q1, map_app, <- !app_assoc. done.
Qed.

(** With both queues empty an eligible frame only records [lastFrameTime]. *)
Lemma renderFrame_eligible_idle nts ct ft r :
  Qle_bool (1000 / targetFrameRate r) (ct - lastFrameTime r) = true ->
  renderQueue r = [] -> batchedOperations r = [] ->
  renderFrame nts ct ft r = set_lastFrameTime r ct.
Proof.
  intros Hel Hq Hb. unfold renderFrame, processRenderQueue. by rewrite Hel, Hq, Hb.
Qed.

(** The sample renderer: default options, offscreen canvas available. *)
Definition renderer0 : Renderer := newRenderer None true.

(** C3 (corrected).  Counterexample: the path of stroke A is cached by the
    first eligible frame after [drawStroke]; [clear()] then drops it. *)
Lemma clear_drops_cache_entry :
  let r := renderFrame int_toString 100 1 (drawStroke renderer0 stroke_A "drawing") in
  let k := getStrokeCacheKey int_toString stroke_A in
  strokeCache r !! k = Some (createStrokePath stroke_A) /\
  strokeCache (clear r) !! k = None.
Proof. vm_compute. split; reflexivity. Qed.

Lemma clear_fold_queues (ls : list (string * CanvasLayer)) (r : Renderer) :
  let r' := fold_left (fun acc '(name, _) => clearLayer acc name) ls r in
  renderQueue r' = renderQueue r ++ map (fun '(name, _) => OpClearLayer name) ls /\
  batchedOperations r' = batchedOperations r /\ layers r' = layers r.
Proof.
  revert r. induction ls as [|[n l] ls IH]; intros r; simpl.
  - by rewrite app_nil_r.
  - destruct (IH (clearLayer r n)) as (H1 & H2 & H3). rewrite H1, H2, H3. simpl.
    by rewrite <- app_assoc.
Qed.

(** C3 (amended): [clear()] empties the compiled-path cache and the
    dirty-region list, and queues one [clearLayer] per layer, in layer
    order, behind the pending immediate operations. *)
Theorem clear_resets_cache (r : Renderer) :
  strokeCache (clear r) = ∅ /\ dirtyRegions (clear r) = [] /\
  renderQueue (clear r) = renderQueue r ++ map (fun '(name, _) => OpClearLayer name) (layers r) /\
  batchedOperations (clear r) = batchedOperations r.
Proof.
  unfold clear. destruct (clear_fold_queues (layers r) r) as (H1 & H2 & _).
  simpl. auto.
Qed.

(** C4 (corrected).  Counterexample: painting the one-point stroke [dot]
    on the clean drawing layer marks it dirty and records a dirty region;
    the region is still there after the frame that ran it. *)
Lemma short_stroke_paint_marks_dirty :
  let r := exec_op int_toString renderer0 (OpDrawStroke stroke_dot "drawing") in
  createStrokePath stroke_dot = [] /\
  map_get (layers renderer0) "drawing" = Some (mkLayer false 1%Z) /\
  map_get (layers r) "drawing" = Some (mkLayer true 1%Z) /\
  dirtyRegions renderer0 = [] /\ length (dirtyRegions r) = 1%nat /\
  length (dirtyRegions (renderFrame int_toString 100 1 (drawStroke renderer0 stroke_dot "drawing"))) = 1%nat.
Proof. vm_compute. repeat split; reflexivity. Qed.

Lemma createStrokePath_short (stroke : DrawingStroke) :
  (length (points stroke) < 2)%nat -> createStrokePath stroke = [].
Proof.
  intros H. unfold createStrokePath. apply Nat.ltb_lt in H. by rewrite H.
Qed.

(** C4 (amended): a stroke with fewer than 2 points compiles to the empty
    path; painting it on an existing layer still sets that layer's dirty
    flag and appends the stroke's bounds to the dirty-region buffer, and
    painting it on a missing layer changes nothing. *)
Theorem short_stroke_paint (nts : Q -> string) (r : Renderer) (stroke : DrawingStroke)
    (layerName : string) :
  (length (points stroke) < 2)%nat ->
  createStrokePath stroke = [] /\
  (forall layer, map_get (layers r) layerName = Some layer ->
     map_get (layers (exec_op nts r (OpDrawStroke stroke layerName))) layerName
       = Some (mark_dirty layer) /\
     dirtyRegions (exec_op nts r (OpDrawStroke stroke layerName))
       = addDirtyRegion (dirtyRegions r) (getStrokeBounds stroke)) /\
  (map_get (layers r) layerName = None ->
     exec_op nts r (OpDrawStroke stroke layerName) = r).
Proof.
  intros H. split; [by apply createStrokePath_short|]. split.
  - intros layer Hl. simpl. rewrite Hl. simpl. split; [apply map_get_set_eq | done].
  - intros Hl. simpl. by rewrite Hl.
Qed.

Lemma short_stroke_paint_witness :
  (length (points stroke_dot) < 2)%nat /\ createStrokePath stroke_dot = [].
Proof.
  split; [simpl; lia|].
  apply (short_stroke_paint int_toString renderer0 stroke_dot "drawing"). simpl. lia.
Defined.

(** C5 (corrected).  Counterexample: an eligible frame (100 ms after the
    start, interval 1000/60 ms) with both queues empty neither composites
    nor records a frame. *)
Lemma idle_frame_not_recorded :
  let r := renderFrame int_toString 100 1 renderer0 in
  Qle_bool (1000 / targetFrameRate renderer0) (100 - lastFrameTime renderer0) = true /\
  rs_framesRendered (renderStats r) = 0%nat /\ trace r = [].
Proof. vm_compute. repeat split; reflexivity. Qed.

(** C5 (amended): on a scheduler tick where the frame interval has
    elapsed and at least one queue is non-empty, both queues are drained
    (batched operations, then immediate ones), [composeLayers] runs, and
    the frame is recorded: [framesRendered] + 1, [totalRenderTime] + the
    frame time, [averageFrameTime] = total / frames, and [droppedFrames]
    + 1 exactly when the frame time exceeds 1.5 times [1000/frameRate].
    When both queues are empty the tick only updates [lastFrameTime]. *)
Theorem eligible_frame_stats (nts : Q -> string) (ct ft : Q) (r : Renderer) :
  Qle_bool (1000 / targetFrameRate r) (ct - lastFrameTime r) = true ->
  ((renderQueue r <> [] \/ batchedOperations r <> []) ->
   let r' := renderFrame nts ct ft r in
   let st := renderStats r in
   renderQueue r' = [] /\ batchedOperations r' = [] /\
   trace r' = trace r ++ map EvExec (batchedOperations r ++ renderQueue r) ++ [EvComposite] /\
   rs_framesRendered (renderStats r') = S (rs_framesRendered st) /\
   rs_totalRenderTime (renderStats r') = rs_totalRenderTime st + ft /\
   rs_averageFrameTime (renderStats r')
     = (rs_totalRenderTime st + ft) / inject_Z (Z.of_nat (S (rs_framesRendered st))) /\
   rs_droppedFrames (renderStats r')
     = (if Qlt_bool (1000 / targetFrameRate r * (3 # 2)) ft
        then S (rs_droppedFrames st) else rs_droppedFrames st)) /\
  (renderQueue r = [] -> batchedOperations r = [] ->
   renderFrame nts ct ft r = set_lastFrameTime r ct).
Proof.
  intros Hel. split.
  - intros Hne. destruct (renderFrame_eligible nts ct ft r Hel Hne) as (H1 & H2 & H3 & _ & H5).
    simpl. rewrite H5. auto 10.
  - by apply renderFrame_eligible_idle.
Qed.

Lemma eligible_frame_stats_witness :
  let r := drawStroke renderer0 stroke_A "drawing" in
  Qle_bool (1000 / targetFrameRate r) (100 - lastFrameTime r) = true /\
  rs_framesRendered (renderStats (renderFrame int_toString 100 1 r)) = 1%nat.
Proof.
  simpl. split; [vm_compute; reflexivity|].
  destruct (eligible_frame_stats int_toString 100 1 (drawStroke renderer0 stroke_A "drawing"))
    as [H _]; [vm_compute; reflexivity|].
  destruct H as (_ & _ & _ & H4 & _); [right; discriminate|]. exact H4.
Defined.

Lemma executed_frame (ops : list Operation) :
  executed (map EvExec ops ++ [EvComposite]) = ops.
Proof.
  unfold executed. rewrite flat_map_app. simpl. rewrite app_nil_r.
  induction ops as [|o ops IH]; simpl; [done|]. by rewrite IH.
Qed.

(** C7: within an eligible tick, the closures that run are exactly the
    batched queue in submission order followed by the immediate queue in
    submission order. *)
Theorem eligible_frame_order (nts : Q -> string) (ct ft : Q) (r : Renderer) :
  Qle_bool (1000 / targetFrameRate r) (ct - lastFrameTime r) = true ->
  exists evs, trace (renderFrame nts ct ft r) = trace r ++ evs /\
              executed evs = batchedOperations r ++ renderQueue r.
Proof.
  intros Hel.
  destruct (renderQueue r) as [|q qs] eqn:Hq; [destruct (batchedOperations r) as [|b bs] eqn:Hb|].
  - exists []. rewrite renderFrame_eligible_idle by done. simpl. by rewrite app_nil_r.
  - destruct (renderFrame_eligible nts ct ft r Hel) as (_ & _ & H3 & _); [right; rewrite Hb; discriminate|].
    eexists. split; [rewrite H3, Hq, Hb; reflexivity|].
    apply executed_frame.
  - destruct (renderFrame_eligible nts ct ft r Hel) as (_ & _ & H3 & _); [left; rewrite Hq; discriminate|].
    eexists. split; [rewrite H3, Hq; reflexivity|].
    apply executed_frame.
Qed.

Lemma eligible_frame_order_witness :
  let r := drawStroke (clearLayer renderer0 "ui") stroke_A "drawing" in
  Qle_bool (1000 / targetFrameRate r) (100 - lastFrameTime r) = true /\
  exists evs, trace (renderFrame int_toString 100 1 r) = trace r ++ evs /\
              executed evs = [OpDrawStroke stroke_A "drawing"; OpClearLayer "ui"].
Proof.
  simpl. split; [vm_compute; reflexivity|].
  apply (eligible_frame_order int_toString 100 1
           (drawStroke (clearLayer renderer0 "ui") stroke_A "drawing")).
  vm_compute. reflexivity.
Defined.

(* ================================================================== *)
(** * Further code: renderer lifecycle, hook redraws, tier options,
      virtual list and the performance monitor *)


(** [getImageData]: flushes the queues with [processRenderQueue] (no frame
    gating), then encodes the main canvas (the encoding is not modelled). *)
Definition getImageData (nts : Q -> string) (frameTime : Q) (r : Renderer) : Renderer :=
  processRenderQueue nts frameTime r.

(** The strokes a layer's canvas shows after a sequence of executed
    closures: [drawStroke] and [drawStrokes] paint the strokes of at least
    2 points (shorter ones give an empty path), [clearLayer] clears the
    whole canvas, and [resize] resets it by assigning its width. *)
Definition layer_strokes (name : string) (evs : list RenderEvent) : list DrawingStroke :=
  fold_left (fun acc e =>
    match e with
    | EvExec (OpDrawStroke s n) =>
        if String.eqb n name then acc ++ filter (fun s => Nat.leb 2 (length (points s))) [s] else acc
    | EvExec (OpDrawStrokes ss n) =>
        if String.eqb n name then acc ++ filter (fun s => Nat.leb 2 (length (points s))) ss else acc
    | EvExec (OpClearLayer n) => if String.eqb n name then [] else acc
    | EvExec (OpResize _ _) => []
    | EvComposite => acc
    end) evs [].

(** The [undo] and [redo] callbacks of the hook with their renderer side:
    the dispatch, then the redraw requests made from the closure's
    [state]. *)
Definition undo_full (st : AdvancedCanvasState) (r : Renderer) : AdvancedCanvasState * Renderer :=
  if Nat.eqb (length (strokes st)) 0 then (st, r) else
  let st' := advancedCanvasReducer st UNDO in
  let r1 := clearLayer r "drawing" in
  let remainingStrokes := slice_drop_last (strokes st) in
  (st', if Nat.ltb 0 (length remainingStrokes) then drawStrokes r1 remainingStrokes "drawing" else r1).

Definition redo_full (st : AdvancedCanvasState) (r : Renderer) : AdvancedCanvasState * Renderer :=
  if Nat.eqb (length (undoStack st)) 0 then (st, r) else
  let st' := advancedCanvasReducer st REDO in
  match at_last (undoStack st) with
  | Some strokesToRedo => (st', drawStrokes r strokesToRedo "drawing")
  | None => (st', r) (* unreachable: the array is non-empty *)
  end.

(** [RenderingOptions] and the [renderingOptions] table of the hook. *)
Record RenderingOptions := mkOptions {
  enableOffscreenRendering : bool;
  enableSmoothing : bool;
  enableBatching : bool;
  maxBatchSize : Q;
  frameRate : Q
}.

Definition renderingOptions (deviceLevel : PerformanceLevel) : RenderingOptions :=
  match deviceLevel with
  | high => mkOptions true true true 50 60
  | medium => mkOptions true true true 30 30
  | low => mkOptions false false true 10 15
  end.

(** [createAdvancedRenderer(canvas, renderingOptions)]. *)
Definition createAdvancedRenderer (o : RenderingOptions) : Renderer :=
  newRenderer (Some (frameRate o)) (enableOffscreenRendering o).

(** JavaScript [a.slice(start, end)] with integer arguments. *)
Definition js_slice {A} (l : list A) (start end_ : Z) : list A :=
  let len := Z.of_nat (length l) in
  let norm i := if (i <? 0)%Z then Z.max 0 (len + i) else Z.min i len in
  let s := norm start in
  let e := norm end_ in
  take (Z.to_nat (e - s)) (drop (Z.to_nat s) l).

Record VirtualList (A : Type) := mkVirtualList {
  visibleItems : list A;
  startIndex : Z;
  endIndex : Z;
  totalHeight : Q;
  offsetY : Q
}.
Arguments visibleItems {A}.
Arguments startIndex {A}.
Arguments endIndex {A}.
Arguments totalHeight {A}.
Arguments offsetY {A}.

(** [PerformanceOptimizer.createVirtualList]. *)
Definition createVirtualList {A} (items : list A) (containerHeight itemHeight scrollTop : Q)
    : VirtualList A :=
  let totalHeight := inject_Z (Z.of_nat (length items)) * itemHeight in
  let visibleCount := Qceiling (containerHeight / itemHeight) in
  let startIndex := Qfloor (scrollTop / itemHeight) in
  let endIndex := Z.min (startIndex + visibleCount + 1) (Z.of_nat (length items)) in
  let visibleItems := js_slice items startIndex endIndex in
  let offsetY := inject_Z startIndex * itemHeight in
  mkVirtualList A visibleItems startIndex endIndex totalHeight offsetY.

(** [PerformanceMonitor.metrics]: metric name to its recorded values. *)
Abbreviation Metrics := (gmap string (list Q)).






(** The body of the frame, the part of the renderer the queued closures
    and [composeLayers] act on. *)
Definition body (r : Renderer) : list (string * CanvasLayer) * gmap string Path2D * list DOMRect :=
  (layers r, strokeCache r, dirtyRegions r).

Example createStrokePath_A :
  createStrokePath stroke_A =
    [moveTo 0 0; quadraticCurveTo 1 1 (3 # 2) (3 # 2); lineTo 2 2].
Proof. vm_compute. reflexivity. Qed.

Example createVirtualList_ex :
  visibleItems (createVirtualList (seq 0 20) 100 30 65) = [2; 3; 4; 5; 6]%nat.
Proof. vm_compute. reflexivity. Qed.

(* ------------------------------------------------------------------ *)
(** ** Frames act on the body only through the closures and [composeLayers] *)

Section FrameBody.
Context (nts : Q -> string) (P : list (string * CanvasLayer) * gmap string Path2D * list DOMRect -> Prop).
Hypothesis P_exec : forall r op, P (body r) -> P (body (exec_op nts r op)).
Hypothesis P_compose : forall r, P (body r) -> P (body (composeLayers r)).

Lemma run_ops_body ops r : P (body r) -> P (body (fold_left (run_op nts) ops r)).
Proof.
  revert r. induction ops as [|op ops IH]; intros r H; simpl; [done|].
  apply IH. unfold run_op. apply P_exec. exact H.
Qed.

Lemma processRenderQueue_body ft r : P (body r) -> P (body (processRenderQueue nts ft r)).
Proof.
  intros H. unfold processRenderQueue.
  destruct (_ && _); [done|].
  apply (P_compose (drainRenderQueue nts _)).
  unfold drainRenderQueue. apply run_ops_body.
  destruct (Nat.ltb 0 _); [|exact H].
  unfold processBatchedOperations. apply run_ops_body. exact H.
Qed.

Lemma renderFrame_body ct ft r : P (body r) -> P (body (renderFrame nts ct ft r)).
Proof.
  intros H. unfold renderFrame. destruct (Qle_bool _ _); [|exact H].
  apply (processRenderQueue_body ft r H).
Qed.

End FrameBody.

Lemma map_set_fst {A} (m : list (string * A)) k v :
  map_get m k <> None -> map fst (map_set m k v) = map fst m.
Proof.
  induction m as [|[k' v'] m IH]; cbn [map_get map_set]; [done|].
  destruct (String.eqb k k') eqn:E; intros H; simpl; [done|]. by rewrite IH.
Qed.





(** The layer names, in Map order, are never changed by the renderer's
    frames and are untouched by [clear]: the three layers created by the
    constructor stay for the renderer's lifetime (until [destroy]). *)
Theorem layer_names_stable (nts : Q -> string) (ct ft : Q) (r : Renderer) :
  map fst (layers (renderFrame nts ct ft r)) = map fst (layers r) /\
  map fst (layers (getImageData nts ft r)) = map fst (layers r) /\
  layers (clear r) = layers r /\
  map fst (layers (newRenderer None true)) = ["background"; "drawing"; "ui"].
Proof.
  set (P := fun (b : list (string * CanvasLayer) * gmap string Path2D * list DOMRect) =>
              map fst b.1.1 = map fst (layers r)).
  assert (Pexec : forall r' op, P (body r') -> P (body (exec_op nts r' op))).
  { intros r' op. unfold P, body. simpl. intros H.
    destruct op; simpl; try (destruct (map_get (layers r') layerName) eqn:E; [|done]);
      simpl; try (rewrite map_set_fst by congruence; done).
    rewrite map_map. rewrite <- H. apply map_ext. by intros [n l]. }
  assert (Pcomp : forall r', P (body r') -> P (body (composeLayers r'))).
  { intros r'. unfold P, body. simpl. intros H. rewrite map_map, <- H.
    apply map_ext. by intros [n l]. }
  split; [apply (renderFrame_body nts P Pexec Pcomp ct ft r); done|].
  split; [apply (processRenderQueue_body nts P Pexec Pcomp ft r); done|].
  split; [|reflexivity].
  unfold clear. destruct (clear_fold_queues (layers r) r) as (_ & _ & H). exact H.
Qed.




(** A compiled path, once in the cache, stays there unchanged through any
    frame or image export: the cache only grows and an entry is never
    overwritten (only [clear] and [destroy] empty it). *)
Theorem strokeCache_entries_persist (nts : Q -> string) (ct ft : Q) (r : Renderer)
    (k : string) (p : Path2D) :
  strokeCache r !! k = Some p ->
  strokeCache (renderFrame nts ct ft r) !! k = Some p /\
  strokeCache (getImageData nts ft r) !! k = Some p.
Proof.
  intros H.
  set (P := fun (b : list (string * CanvasLayer) * gmap string Path2D * list DOMRect) =>
              b.1.2 !! k = Some p).
  assert (Pexec : forall r' op, P (body r') -> P (body (exec_op nts r' op))).
  { intros r' op. unfold P, body. simpl. intros Hr.
    destruct op as [stroke n|ss n|n|w h]; simpl;
      [|destruct (map_get (layers r') n); exact Hr|destruct (map_get (layers r') n); exact Hr|exact Hr].
    destruct (map_get (layers r') n); simpl; [|exact Hr].
    destruct (strokeCache r' !! getStrokeCacheKey nts stroke) eqn:E; [done|].
    rewrite lookup_insert_ne; [done|]. intros Hk. rewrite Hk in E. congruence. }
  assert (Pcomp : forall r', P (body r') -> P (body (composeLayers r'))) by done.
  split.
  - apply (renderFrame_body nts P Pexec Pcomp ct ft r H).
  - apply (processRenderQueue_body nts P Pexec Pcomp ft r H).
Qed.

Lemma strokeCache_entries_persist_witness :
  let r := renderFrame int_toString 100 1 (drawStroke renderer0 stroke_A "drawing") in
  strokeCache r !! getStrokeCacheKey int_toString stroke_A = Some (createStrokePath stroke_A) /\
  strokeCache (renderFrame int_toString 200 1 (drawStroke r stroke_B "drawing"))
    !! getStrokeCacheKey int_toString stroke_A = Some (createStrokePath stroke_A).
Proof.
  split; [vm_compute; reflexivity|].
  destruct (strokeCache_entries_persist int_toString 200 1
    (drawStroke (renderFrame int_toString 100 1 (drawStroke renderer0 stroke_A "drawing")) stroke_B "drawing")
    (getStrokeCacheKey int_toString stroke_A) (createStrokePath stroke_A)) as [H _];
    [vm_compute; reflexivity | exact H].
Defined.

(** After an eligible frame with queued work, no layer is left dirty:
    [composeLayers] runs last and cleans every layer it drew. *)
Theorem frame_leaves_layers_clean (nts : Q -> string) (ct ft : Q) (r : Renderer) :
  Qle_bool (1000 / targetFrameRate r) (ct - lastFrameTime r) = true ->
  (renderQueue r <> [] \/ batchedOperations r <> []) ->
  Forall (fun nl => isDirty nl.2 = false) (layers (renderFrame nts ct ft r)).
Proof.
  intros Hel Hne. unfold renderFrame, processRenderQueue. rewrite Hel.
  assert (Hq : (Nat.eqb (length (renderQueue r)) 0 && Nat.eqb (length (batchedOperations r)) 0) = false).
  { destruct Hne as [Hne|Hne];
      [destruct (renderQueue r) | destruct (batchedOperations r), (Nat.eqb (length (renderQueue r)) 0)];
      simpl; done. }
  rewrite Hq. cbn [layers set_lastFrameTime updateRenderStats set_stats composeLayers set_trace set_layers].
  apply Forall_forall. intros [n l] Hin. apply list_elem_of_In, in_map_iff in Hin.
  destruct Hin as [[n' l'] [Heq _]]. simpl in Heq.
  destruct (isDirty l') eqn:E; inversion Heq; subst; simpl; done.
Qed.

Lemma frame_leaves_layers_clean_witness :
  let r := drawStroke renderer0 stroke_A "drawing" in
  Qle_bool (1000 / targetFrameRate r) (100 - lastFrameTime r) = true /\
  Forall (fun nl => isDirty nl.2 = false) (layers (renderFrame int_toString 100 1 r)).
Proof.
  split; [vm_compute; reflexivity|].
  apply (frame_leaves_layers_clean int_toString 100 1 (drawStroke renderer0 stroke_A "drawing")).
  - vm_compute. reflexivity.
  - right. discriminate.
Defined.



(** [getImageData] flushes: whatever the time since the last frame, both
    queues are empty afterwards, the batched operations having run before
    the immediate ones. *)
Theorem getImageData_flushes (nts : Q -> string) (ft : Q) (r : Renderer) :
  renderQueue (getImageData nts ft r) = [] /\ batchedOperations (getImageData nts ft r) = [] /\
  exists evs, trace (getImageData nts ft r) = trace r ++ evs /\
              executed evs = batchedOperations r ++ renderQueue r.
Proof.
  set (ct := lastFrameTime r + 1000 / targetFrameRate r).
  assert (Hel : Qle_bool (1000 / targetFrameRate r) (ct - lastFrameTime r) = true).
  { apply Qle_bool_iff. unfold ct.
    assert (E : lastFrameTime r + 1000 / targetFrameRate r - lastFrameTime r == 1000 / targetFrameRate r) by ring.
    rewrite E. apply Qle_refl. }
  assert (Hf : renderFrame nts ct ft r = set_lastFrameTime (getImageData nts ft r) ct).
  { unfold renderFrame. by rewrite Hel. }
  destruct (decide (renderQueue r = [] /\ batchedOperations r = [])) as [[Hq Hb]|Hne].
  - unfold getImageData, processRenderQueue. rewrite Hq, Hb. simpl.
    split; [done|]. split; [done|]. exists []. by rewrite app_nil_r.
  - assert (Hne' : renderQueue r <> [] \/ batchedOperations r <> []).
    { destruct (renderQueue r); [right|left]; [|discriminate]. intros Hb. apply Hne. done. }
    destruct (renderFrame_eligible nts ct ft r Hel Hne') as (H1 & H2 & H3 & _).
    rewrite Hf in H1, H2, H3. cbn [renderQueue batchedOperations trace set_lastFrameTime] in H1, H2, H3.
    split; [exact H1|]. split; [exact H2|].
    eexists. split; [exact H3|]. apply executed_frame.
Qed.



(* ------------------------------------------------------------------ *)
(** ** Path compilation and stroke bounds *)

Lemma smooth_segments_length (l : list Point) : length (smooth_segments l) = (length l - 1)%nat.
Proof.
  destruct l as [|a l]; [done|]. replace (length (a :: l) - 1)%nat with (length l) by (simpl; lia).
  revert a. induction l as [|b l IH]; intros a; [done|].
  transitivity (S (length (smooth_segments (b :: l)))); [reflexivity|]. by rewrite IH.
Qed.

Lemma smooth_segments_lookup (l : list Point) (i : nat) (a b : Point) :
  l !! i = Some a -> l !! S i = Some b ->
  smooth_segments l !! i =
    Some (quadraticCurveTo (x a) (y a) ((x a + x b) / 2) ((y a + y b) / 2)).
Proof.
  revert i. induction l as [|c l IH]; intros i Ha Hb; [done|].
  destruct l as [|d l]; [destruct i; done|].
  destruct i as [|i].
  - simpl in Ha, Hb. inversion Ha. inversion Hb. subst. reflexivity.
  - transitivity (smooth_segments (d :: l) !! i); [reflexivity|]. apply IH; done.
Qed.

(** A stroke of [n >= 2] points compiles to [n] path commands: a [moveTo]
    the first point, then for each interior point [i] a quadratic curve
    with control point [points[i]] ending at the midpoint of [points[i]]
    and [points[i+1]], and a final [lineTo] the last point. *)
Theorem createStrokePath_shape (stroke : DrawingStroke) :
  (2 <= length (points stroke))%nat ->
  let path := createStrokePath stroke in
  let n := length (points stroke) in
  length path = n /\
  (forall p0, points stroke !! 0%nat = Some p0 -> path !! 0%nat = Some (moveTo (x p0) (y p0))) /\
  (forall i a b, (1 <= i)%nat -> points stroke !! i = Some a -> points stroke !! S i = Some b ->
     path !! i = Some (quadraticCurveTo (x a) (y a) ((x a + x b) / 2) ((y a + y b) / 2))) /\
  (forall pl, points stroke !! (n - 1)%nat = Some pl -> path !! (n - 1)%nat = Some (lineTo (x pl) (y pl))).
Proof.
  intros Hn path n. unfold path, n, createStrokePath.
  destruct (points stroke) as [|p0 rest] eqn:Hp; [simpl in Hn; lia|].
  assert (Hlt : Nat.ltb (length (p0 :: rest)) 2 = false) by (apply Nat.ltb_ge; exact Hn).
  rewrite Hlt. simpl in Hn.
  destruct rest as [|q rest'] using rev_ind; [simpl in Hn; lia|].
  set (rest := rest' ++ [q]).
  assert (Hlast : at_last (p0 :: rest) = Some q) by (unfold rest; rewrite app_comm_cons; apply at_last_snoc).
  rewrite Hlast.
  assert (Hlen : length (smooth_segments rest) = length rest') by
    (rewrite smooth_segments_length; unfold rest; rewrite length_app; simpl; lia).
  assert (Hlr : length rest = S (length rest')) by (unfold rest; rewrite length_app; simpl; lia).
  split; [rewrite length_app; simpl; rewrite length_app, Hlen; simpl; rewrite Hlr; lia|].
  split; [intros p Hp0; simpl in Hp0; by inversion Hp0|].
  split.
  - intros i a b Hi Ha Hb. destruct i as [|i]; [lia|].
    simpl in Ha, Hb. simpl.
    assert (Hi2 : (i < length rest')%nat).
    { apply lookup_lt_Some in Hb. rewrite Hlr in Hb. lia. }
    rewrite lookup_app_l by (rewrite Hlen; exact Hi2).
    apply smooth_segments_lookup; done.
  - intros pl Hpl. simpl length in Hpl |- *. rewrite Hlr in Hpl |- *.
    replace (S (S (length rest')) - 1)%nat with (S (length rest')) in Hpl |- * by lia.
    simpl in Hpl. unfold rest in Hpl. rewrite lookup_app_r in Hpl by lia.
    rewrite Nat.sub_diag in Hpl. simpl in Hpl. inversion Hpl. subst pl.
    simpl. rewrite lookup_app_r by lia. rewrite Hlen, Nat.sub_diag. reflexivity.
Qed.

Lemma createStrokePath_shape_witness :
  (2 <= length (points stroke_A))%nat /\ length (createStrokePath stroke_A) = 3%nat.
Proof.
  split; [simpl; lia|].
  destruct (createStrokePath_shape stroke_A) as [H _]; [simpl; lia | exact H].
Defined.




(* ------------------------------------------------------------------ *)
(** ** Hook: repeated undo, the undo redraw, tier options *)

(** Undoing as many times as there are strokes empties [strokes] and pushes
    one single-stroke batch per stroke, most recent first, onto
    [undoStack]. *)
Theorem undo_all_strokes (s : AdvancedCanvasState) :
  let s' := dispatch_all s (repeat UNDO (length (strokes s))) in
  strokes s' = [] /\
  undoStack s' = undoStack s ++ map (fun t => [t]) (rev (strokes s)).
Proof.
  assert (Hgen : forall l s, strokes s = l ->
            strokes (dispatch_all s (repeat UNDO (length l))) = [] /\
            undoStack (dispatch_all s (repeat UNDO (length l))) =
              undoStack s ++ map (fun t => [t]) (rev l)).
  { intros l. induction l as [|a l IH] using rev_ind; intros s0 Hs.
    - simpl. by rewrite app_nil_r.
    - rewrite length_app, Nat.add_1_r. cbn [repeat].
      unfold dispatch_all. cbn [fold_left]. rewrite (reducer_UNDO_snoc _ l a Hs).
      fold (dispatch_all (with_history s0 l (undoStack s0 ++ [[a]]) (redoStack s0)) (repeat UNDO (length l))).
      destruct (IH (with_history s0 l (undoStack s0 ++ [[a]]) (redoStack s0)) eq_refl) as [H1 H2].
      split; [exact H1|]. rewrite H2. simpl. rewrite rev_app_distr. simpl.
      by rewrite <- app_assoc. }
  intros s'. apply Hgen. reflexivity.
Qed.

Lemma layer_strokes_cleared (name : string) (evs : list RenderEvent) :
  layer_strokes name (evs ++ [EvExec (OpClearLayer name); EvComposite]) = [].
Proof. unfold layer_strokes. rewrite fold_left_app. simpl. by rewrite String.eqb_refl. Qed.

(** The [undo] callback queues its redraw of the remaining strokes as a
    batched [drawStrokes] and the wipe of the drawing layer as an immediate
    [clearLayer]; since a frame runs batched operations first, the wipe
    comes last, and after the next eligible frame the drawing layer shows
    no stroke, even when strokes remain. *)
Theorem undo_redraw_erased (nts : Q -> string) (ct ft : Q) (st : AdvancedCanvasState) (r : Renderer) :
  strokes st <> [] -> renderQueue r = [] -> batchedOperations r = [] ->
  Qle_bool (1000 / targetFrameRate r) (ct - lastFrameTime r) = true ->
  let st' := fst (undo_full st r) in
  let r1 := snd (undo_full st r) in
  strokes st' = slice_drop_last (strokes st) /\
  renderQueue r1 = [OpClearLayer "drawing"] /\
  batchedOperations r1 = (if Nat.ltb 0 (length (strokes st')) then [OpDrawStrokes (strokes st') "drawing"] else []) /\
  layer_strokes "drawing" (trace (renderFrame nts ct ft r1)) = [].
Proof.
  intros Hne Hq Hb Hel st' r1.
  destruct (strokes st) as [|a l] eqn:Hs using rev_ind; [congruence|].
  assert (Hu : undo_full st r =
    (with_history st l (undoStack st ++ [[a]]) (redoStack st),
     if Nat.ltb 0 (length l) then drawStrokes (clearLayer r "drawing") l "drawing"
     else clearLayer r "drawing")).
  { unfold undo_full. rewrite Hs, length_snoc_neq0, (reducer_UNDO_snoc _ l a Hs), slice_drop_last_snoc.
    reflexivity. }
  unfold st', r1. rewrite Hu. cbn [fst snd strokes with_history]. rewrite slice_drop_last_snoc.
  split; [reflexivity|].
  set (r2 := if Nat.ltb 0 (length l) then drawStrokes (clearLayer r "drawing") l "drawing"
             else clearLayer r "drawing").
  assert (Hr2 : renderQueue r2 = [OpClearLayer "drawing"] /\
                batchedOperations r2 = (if Nat.ltb 0 (length l) then [OpDrawStrokes l "drawing"] else []) /\
                targetFrameRate r2 = targetFrameRate r /\ lastFrameTime r2 = lastFrameTime r).
  { unfold r2. destruct (Nat.ltb 0 (length l)); simpl; rewrite Hq, Hb; auto. }
  destruct Hr2 as (Q2 & B2 & T2 & L2).
  split; [exact Q2|]. split; [exact B2|].
  destruct (renderFrame_eligible nts ct ft r2) as (_ & _ & H3 & _).
  - by rewrite T2, L2.
  - left. rewrite Q2. discriminate.
  - rewrite H3, Q2, map_app. simpl. rewrite <- !app_assoc. simpl. rewrite (app_assoc (trace r2)). apply layer_strokes_cleared.
Qed.

Lemma undo_redraw_erased_witness :
  let st := endDrawing_cb stroke_B (endDrawing_cb stroke_A initialState) in
  strokes st <> [] /\
  layer_strokes "drawing" (trace (renderFrame int_toString 100 1 (snd (undo_full st renderer0)))) = [].
Proof.
  split; [discriminate|].
  destruct (undo_redraw_erased int_toString 100 1
              (endDrawing_cb stroke_B (endDrawing_cb stroke_A initialState)) renderer0)
    as (_ & _ & _ & H); [discriminate | reflexivity | reflexivity | vm_compute; reflexivity | exact H].
Defined.

(** On a mobile device the tier is never [high], so the renderer options
    chosen by the hook run at most 30 frames per second with batches of at
    most 30, and the renderer created from them uses that frame rate. *)
Theorem mobile_options_capped (hardwareConcurrency : Q) (memoryTotal : option Q) :
  let o := renderingOptions (getDevicePerformanceLevel hardwareConcurrency memoryTotal true) in
  getDevicePerformanceLevel hardwareConcurrency memoryTotal true <> high /\
  frameRate o <= 30 /\ maxBatchSize o <= 30 /\
  targetFrameRate (createAdvancedRenderer o) = frameRate o.
Proof.
  unfold getDevicePerformanceLevel.
  destruct (Qle_bool 6 _ && Qle_bool 4 _); vm_compute; repeat split; discriminate.
Qed.

(* ------------------------------------------------------------------ *)
(** ** [createVirtualList] *)

(** With a positive item height and a non-negative scroll offset and
    container height, the window [startIndex, endIndex) lies inside the
    list, holds at most [ceil(containerHeight / itemHeight) + 1] items, and
    [visibleItems] is exactly the items of the list at those indices. *)
Theorem createVirtualList_window {A} (items : list A) (containerHeight itemHeight scrollTop : Q) :
  0 < itemHeight -> 0 <= scrollTop -> 0 <= containerHeight ->
  let v := createVirtualList items containerHeight itemHeight scrollTop in
  (0 <= startIndex v)%Z /\ (endIndex v <= Z.of_nat (length items))%Z /\
  length (visibleItems v) = Z.to_nat (endIndex v - startIndex v) /\
  (length (visibleItems v) <= Z.to_nat (Qceiling (containerHeight / itemHeight)) + 1)%nat /\
  (forall i, (i < length (visibleItems v))%nat ->
     visibleItems v !! i = items !! (Z.to_nat (startIndex v) + i)%nat).
Proof.
  intros Hih Hst Hch v. unfold v, createVirtualList, js_slice. cbn [startIndex endIndex visibleItems].
  cbv beta zeta.
  set (f := Qfloor (scrollTop / itemHeight)).
  set (c := Qceiling (containerHeight / itemHeight)).
  set (n := length items).
  assert (Hf : (0 <= f)%Z).
  { assert (H0 : 0 <= scrollTop / itemHeight).
    { apply Qle_shift_div_l; [exact Hih|]. rewrite Qmult_0_l. exact Hst. }
    pose proof (Qlt_floor (scrollTop / itemHeight)) as H1. fold f in H1.
    assert (H2 : inject_Z 0 < inject_Z (f + 1)) by (eapply Qle_lt_trans; eauto).
    rewrite <- Zlt_Qlt in H2. lia. }
  assert (Hc : (0 <= c)%Z).
  { assert (H0 : 0 <= containerHeight / itemHeight).
    { apply Qle_shift_div_l; [exact Hih|]. rewrite Qmult_0_l. exact Hch. }
    pose proof (Qle_ceiling (containerHeight / itemHeight)) as H1. fold c in H1.
    assert (H2 : inject_Z 0 <= inject_Z c) by (eapply Qle_trans; eauto).
    rewrite <- Zle_Qle in H2. exact H2. }
  destruct (Z.ltb_spec f 0) as [Hlt|_]; [lia|].
  destruct (Z.ltb_spec (Z.min (f + c + 1) (Z.of_nat n)) 0) as [Hlt|_]; [lia|].
  rewrite length_take, length_drop. fold n.
  split; [exact Hf|]. split; [lia|]. split; [lia|]. split; [lia|].
  intros i Hi.
  rewrite lookup_take_lt by lia. rewrite lookup_drop.
  f_equal. lia.
Qed.

Lemma createVirtualList_window_witness :
  0 < 30 /\ 0 <= 65 /\ 0 <= 100 /\
  visibleItems (createVirtualList (seq 0 20) 100 30 65) !! 1%nat = seq 0 20 !! 3%nat.
Proof.
  destruct (createVirtualList_window (seq 0 20) 100 30 65) as (_ & _ & _ & _ & H);
    [vm_compute; reflexivity | vm_compute; discriminate | vm_compute; discriminate |].
  split; [vm_compute; reflexivity|]. split; [vm_compute; discriminate|].
  split; [vm_compute; discriminate|].
  exact (H 1%nat ltac:(vm_compute; lia)).
Defined.



(* ------------------------------------------------------------------ *)
(** ** [PerformanceMonitor] *)












